(** * jellog: a shallow embedding of the Logger, its Handlers and the
      line Formatter, with the properties of the specification.

    The development follows the most recent revision of each source file:
    [Level] is the struct with [Name] and [Severity], [AddHandler] maps the
    [LvAll] sentinel to [minPossibleSeverity], and [Logger] has [Copy].
    Go's [int] is taken to be 64 bits wide and is modelled by [Z]; the only
    arithmetic the code does on it is [calldepth+1] and the digit loop of
    [itoa].  Strings and byte slices are both [string] (a list of bytes).
    Mutexes serialise access between goroutines; the model is sequential,
    so locking and unlocking leave no trace in it. *)

From Stdlib Require Import ZArith String Ascii Lia Bool.
From stdpp Require Import base option list gmap strings.
From Equations Require Import Equations.

Local Open Scope Z_scope.

(** ** Go integers *)

Definition MaxInt : Z := 2 ^ 63 - 1.
Definition MinInt : Z := - 2 ^ 63.

(** [is_int z]: [z] is a value of Go's type [int]. *)
Definition is_int (z : Z) : Prop := MinInt <= z <= MaxInt.

#[global] Instance is_int_dec z : Decision (is_int z).
Proof. unfold is_int. apply _. Defined.

(** Wrap-around of [int] arithmetic. *)
Definition wrap_int (z : Z) : Z := (z - MinInt) mod 2 ^ 64 + MinInt.

Definition int_add (a b : Z) : Z := wrap_int (a + b).

(** Conversion [byte(x)] of an [int]. *)
Definition byte_of_int (z : Z) : ascii := ascii_of_N (Z.to_N (z mod 256)).

Definition newline : ascii := ascii_of_N 10.
Definition nl : string := String newline "".

(** ** Errors

    An [error] is either a plain message ([errors.New], [fmt.Errorf] without
    [%w], an error of the operating system) or a message wrapping another
    error ([fmt.Errorf] with one [%w] verb). *)

Inductive error : Type :=
| errorString (s : string)
| wrapError (msg : string) (err : error).

Definition Error (e : error) : string :=
  match e with
  | errorString s => s
  | wrapError msg _ => msg
  end.

Definition Unwrap (e : error) : option error :=
  match e with
  | errorString _ => None
  | wrapError _ err => Some err
  end.

(** [os.ErrInvalid]: what the methods of [*os.File] return on a nil
    receiver (package [os] of the Go library). *)
Definition os_ErrInvalid : error := errorString "invalid argument".

(** ** level.go *)

Record Level : Type := mkLevel { Name : string; Severity : Z }.

#[global] Instance Level_eq_dec : EqDecision Level.
Proof. solve_decision. Defined.

#[global] Instance Level_countable : Countable Level.
Proof.
  apply (inj_countable' (fun lv => (Name lv, Severity lv))
                        (fun p => mkLevel p.1 p.2)).
  by intros [].
Defined.

Definition LvTrace : Level := mkLevel "TRACE" (-200).
Definition LvDebug : Level := mkLevel "DEBUG" (-100).
Definition LvInfo : Level := mkLevel "INFO" 0.
Definition LvWarn : Level := mkLevel "WARN" 100.
Definition LvError : Level := mkLevel "ERROR" 200.
Definition LvFatal : Level := mkLevel "FATAL" 300.
Definition LvAll : Level := mkLevel "ALL" MaxInt.

Definition minPossibleSeverity : Z := MinInt.

(** ** Time, as far as the formatter looks at it

    A [time.Time] shows a date and a clock in its own location; [UTC()]
    gives the same instant seen in UTC. *)

Record Clockface : Type := mkClockface {
  year : Z; month : Z; day : Z;
  hour : Z; minute : Z; second : Z;
  nanosecond : Z
}.

Record Time : Type := mkTime { inLocation : Clockface; inUTC : Clockface }.

Definition Time_UTC (t : Time) : Time :=
  {| inLocation := inUTC t; inUTC := inUTC t |}.

(** ** formatters.go: itoa and formatTime *)

(** The loop of [itoa]; [b] is the part of the array filled so far, which
    starts at the array's end and grows to the front. *)
Equations? itoa_loop (i wid : Z) (b : string) : string
  by wf (Z.to_nat (Z.log2 (Z.abs i)) + Z.to_nat wid)%nat lt :=
  itoa_loop i wid b with decide (10 <= i ∨ 1 < wid) => {
    | left _ =>
        itoa_loop (i ÷ 10) (wid - 1)
                  (String (byte_of_int (48 + i - (i ÷ 10) * 10)) b)
    | right _ => String (byte_of_int (48 + i)) b }.
Proof.
  assert (Hq : Z.abs (i ÷ 10) <= Z.abs i).
  { rewrite <- Z.quot_abs by lia. apply Z.quot_le_upper_bound; lia. }
  pose proof (Z.log2_le_mono _ _ Hq) as Hmono.
  pose proof (Z.log2_nonneg (Z.abs (i ÷ 10))) as Hnn.
  destruct (decide (10 <= i)) as [Hi|Hi]; [|lia].
  assert (Hlt : Z.log2 (Z.abs (i ÷ 10)) < Z.log2 (Z.abs i)); [|lia].
  assert (1 <= i ÷ 10) by (apply Z.quot_le_lower_bound; lia).
  assert (2 * (i ÷ 10) <= i).
  { pose proof (Z.quot_rem' i 10). pose proof (Z.rem_bound_pos i 10). lia. }
  rewrite !Z.abs_eq by lia.
  apply Z.lt_le_trans with (Z.log2 (2 * (i ÷ 10))).
  - rewrite Z.log2_double by lia. lia.
  - apply Z.log2_le_mono. lia.
Qed.

Definition itoa (buf : string) (i wid : Z) : string :=
  buf +:+ itoa_loop i wid "".

Definition formatTime (t : Time) (utc micros : bool) : string :=
  let t := if utc then Time_UTC t else t in
  let c := inLocation t in
  let buf := "" in
  let buf := itoa buf (year c) 4 in
  let buf := buf +:+ "/" in
  let buf := itoa buf (month c) 2 in
  let buf := buf +:+ "/" in
  let buf := itoa buf (day c) 2 in
  let buf := buf +:+ " " in
  let buf := itoa buf (hour c) 2 in
  let buf := buf +:+ ":" in
  let buf := itoa buf (minute c) 2 in
  let buf := buf +:+ ":" in
  let buf := itoa buf (second c) 2 in
  if micros then
    let buf := buf +:+ "." in
    itoa buf (nanosecond c ÷ 1000) 6
  else buf.

(** ** What the code uses of packages strings, unicode/utf8 and fmt *)

(** [strings.HasSuffix s suffix]: [s] is [suffix] or the rest of [s] after
    its first byte ends with [suffix]. *)
Fixpoint HasSuffix (s suffix : string) : bool :=
  if String.eqb s suffix then true
  else match s with
       | "" => false
       | String _ s' => HasSuffix s' suffix
       end.

(** The table [first] of package utf8, for a leading byte at or above
    [RuneSelf]: the length of the encoding and the range accepted for its
    second byte; [None] is the table's [xx], an invalid leading byte. *)
Definition utf8_first (c : N) : option (nat * N * N) :=
  if (c <? 194)%N then None
  else if (c <? 224)%N then Some (2%nat, 128%N, 191%N)
  else if (c =? 224)%N then Some (3%nat, 160%N, 191%N)
  else if (c <? 237)%N then Some (3%nat, 128%N, 191%N)
  else if (c =? 237)%N then Some (3%nat, 128%N, 159%N)
  else if (c <? 240)%N then Some (3%nat, 128%N, 191%N)
  else if (c =? 240)%N then Some (4%nat, 144%N, 191%N)
  else if (c <? 244)%N then Some (4%nat, 128%N, 191%N)
  else if (c =? 244)%N then Some (4%nat, 128%N, 143%N)
  else None.

Definition in_range (lo hi c : N) : bool := (lo <=? c)%N && (c <=? hi)%N.

(** Number of bytes of the rune that starts with byte [c] and is followed
    by [rest]; an invalid or short encoding is one byte wide. *)
Definition rune_size (c : ascii) (rest : string) : nat :=
  let c := N_of_ascii c in
  if (c <? 128)%N then 1%nat
  else match utf8_first c with
       | None => 1%nat
       | Some (size, lo, hi) =>
           if (String.length rest <? size - 1)%nat then 1%nat
           else match rest with
                | String c1 (String c2 (String c3 _)) =>
                    if negb (in_range lo hi (N_of_ascii c1)) then 1%nat
                    else if (size =? 2)%nat then 2%nat
                    else if negb (in_range 128 191 (N_of_ascii c2)) then 1%nat
                    else if (size =? 3)%nat then 3%nat
                    else if negb (in_range 128 191 (N_of_ascii c3)) then 1%nat
                    else 4%nat
                | String c1 (String c2 "") =>
                    if negb (in_range lo hi (N_of_ascii c1)) then 1%nat
                    else if (size =? 2)%nat then 2%nat
                    else if negb (in_range 128 191 (N_of_ascii c2)) then 1%nat
                    else 3%nat
                | String c1 "" =>
                    if negb (in_range lo hi (N_of_ascii c1)) then 1%nat
                    else 2%nat
                | "" => 1%nat
                end
       end.

(** [utf8.RuneCountInString]; [skip] counts the bytes still to pass over
    of the rune counted last. *)
Fixpoint rune_count (skip : nat) (s : string) : nat :=
  match s with
  | "" => 0%nat
  | String c rest =>
      match skip with
      | S k => rune_count k rest
      | O => S (rune_count (rune_size c rest - 1) rest)
      end
  end.

Definition RuneCountInString (s : string) : nat := rune_count 0 s.

Fixpoint spaces (n : nat) : string :=
  match n with
  | O => ""
  | S k => String " " (spaces k)
  end.

(** The verb [%-5s] of package fmt: the operand, then padding to a width of
    5 runes; nothing is cut off and a width already reached pads nothing. *)
Definition pad_right_5 (s : string) : string :=
  s +:+ spaces (5 - RuneCountInString s).

(** ** jellog.go: Event and Formatter *)

Record Event (E : Type) : Type := mkEvent {
  evt_Component : string;
  evt_Time : Time;
  evt_Level : Level;
  evt_Message : E
}.
Arguments mkEvent {E} _ _ _ _.
Arguments evt_Component {E} _.
Arguments evt_Time {E} _.
Arguments evt_Level {E} _.
Arguments evt_Message {E} _.

(** [evt.Component = c] on the local copy of an event. *)
Definition set_Component {E} (evt : Event E) (c : string) : Event E :=
  mkEvent c (evt_Time evt) (evt_Level evt) (evt_Message evt).

(** The interface [Formatter[E]]: a value with the two methods. *)
Record Formatter (E : Type) : Type := mkFormatter {
  Format : Event E -> string;
  Break : string
}.
Arguments mkFormatter {E} _ _.
Arguments Format {E} _ _.
Arguments Break {E} _.

(** ** formatters.go: LineFormat *)

Record LineFormat : Type := mkLineFormat {
  UTC : bool;
  ShowMircoseconds : bool
}.

Definition LineFormat_Format (lf : LineFormat) (evt : Event string) : string :=
  let msg := evt_Message evt in
  let msg := if negb (HasSuffix msg nl) then msg +:+ nl else msg in
  let timeStr := formatTime (evt_Time evt) (UTC lf) (ShowMircoseconds lf) in
  if negb (String.eqb (evt_Component evt) "") then
    timeStr +:+ " " +:+ pad_right_5 (Name (evt_Level evt)) +:+ " (" +:+
      evt_Component evt +:+ ") " +:+ msg
  else
    timeStr +:+ " " +:+ pad_right_5 (Name (evt_Level evt)) +:+ " " +:+ msg.

Definition LineFormat_Break (lf : LineFormat) : string := nl.

Definition LineFormat_Formatter (lf : LineFormat) : Formatter string :=
  mkFormatter (LineFormat_Format lf) (LineFormat_Break lf).

Definition defFormatter : LineFormat := mkLineFormat false false.

(** ** options.go *)

Record HandlerOptions (E : Type) : Type := mkHandlerOptions {
  Component : string;
  Formatter_opt : option (Formatter E)
}.
Arguments mkHandlerOptions {E} _ _.
Arguments Component {E} _.
Arguments Formatter_opt {E} _.

(** ** The world outside the process

    The handlers write to stderr and to open files.  What a write does to
    the world, and whether it fails, is the operating system's business: the
    model takes both writes as operations of an arbitrary world. *)

Class OS (World File : Type) : Type := {
  (** [os.Stderr.Write(buf)], without the count of bytes *)
  os_Stderr_Write : string -> World -> World * option error;
  (** [f.Write(buf)] on an open file [f], without the count of bytes *)
  os_File_Write_open : File -> string -> World -> World * option error
}.

(** [f.Write(buf)] for [f] of type [*os.File]: a nil receiver is refused
    with [os.ErrInvalid] before anything is touched. *)
Definition os_File_Write `{OS World File} (f : option File) (buf : string)
    (w : World) : World * option error :=
  match f with
  | None => (w, Some os_ErrInvalid)
  | Some f => os_File_Write_open f buf w
  end.

(** ** jellog.go: the interface Handler

    A value of the interface is a pointer to some handler together with
    that handler's methods; [==] on two such values compares the
    pointers. *)

Record Handler (World E : Type) : Type := mkHandler {
  hdl_ptr : positive;
  hdl_HandlerOptions : HandlerOptions E;
  hdl_Output : Z -> Event E -> World -> World * option error;
  hdl_InsertBreak : World -> World * option error
}.
Arguments mkHandler {World E} _ _ _ _.
Arguments hdl_ptr {World E} _.
Arguments hdl_HandlerOptions {World E} _.
Arguments hdl_Output {World E} _ _ _ _.
Arguments hdl_InsertBreak {World E} _ _.

Definition Handler_eqb {World E} (a b : Handler World E) : bool :=
  bool_decide (hdl_ptr a = hdl_ptr b).

Section Sinks.
Context `{os : OS World File}.

(** *** stderr.go *)

Record StderrHandler : Type := mkStderrHandler {
  seh_opts : HandlerOptions string
}.

Definition NewStderrHandler (opts : option (HandlerOptions string))
    : StderrHandler :=
  let opts := match opts with
              | None => mkHandlerOptions "" None
              | Some o => o
              end in
  mkStderrHandler opts.

Definition StderrHandler_InsertBreak (seh : StderrHandler) (w : World)
    : World * option error :=
  let buf := match Formatter_opt (seh_opts seh) with
             | Some f => Break f
             | None => LineFormat_Break defFormatter
             end in
  os_Stderr_Write buf w.

Definition StderrHandler_HandlerOptions (seh : StderrHandler)
    : HandlerOptions string := seh_opts seh.

Definition StderrHandler_Output (seh : StderrHandler) (calldepth : Z)
    (evt : Event string) (w : World) : World * option error :=
  let evt :=
    if negb (String.eqb (Component (seh_opts seh)) "") then
      let evt :=
        if negb (String.eqb (evt_Component evt) "")
        then set_Component evt (evt_Component evt +:+ ".")
        else evt in
      set_Component evt (evt_Component evt +:+ Component (seh_opts seh))
    else evt in
  let buf := match Formatter_opt (seh_opts seh) with
             | Some f => Format f evt
             | None => LineFormat_Format defFormatter evt
             end in
  os_Stderr_Write buf w.

(** The handler at address [p] as a value of the interface. *)
Definition StderrHandler_Handler (p : positive) (seh : StderrHandler)
    : Handler World string :=
  mkHandler p (StderrHandler_HandlerOptions seh)
            (StderrHandler_Output seh) (StderrHandler_InsertBreak seh).

(** *** file.go *)

Record FileHandler : Type := mkFileHandler {
  fh_opts : HandlerOptions string;
  fh_f : option File
}.

(** [FileHandler{}] *)
Definition FileHandler_zero : FileHandler :=
  mkFileHandler (mkHandlerOptions "" None) None.

(** [OpenFile], given what [os.OpenFile] returned for the file name. *)
Definition OpenFile (opened : File + error)
    (opts : option (HandlerOptions string)) : FileHandler * option error :=
  let opts := match opts with
              | None => mkHandlerOptions "" None
              | Some o => o
              end in
  match opened with
  | inr err =>
      (FileHandler_zero,
       Some (wrapError ("cannot open file: " +:+ Error err) err))
  | inl f => (mkFileHandler opts (Some f), None)
  end.

Definition FileHandler_InsertBreak (fh : FileHandler) (w : World)
    : World * option error :=
  let buf := match Formatter_opt (fh_opts fh) with
             | Some f => Break f
             | None => LineFormat_Break defFormatter
             end in
  os_File_Write (fh_f fh) buf w.

Definition FileHandler_Options (fh : FileHandler) : HandlerOptions string :=
  fh_opts fh.

Definition FileHandler_Output (fh : FileHandler) (calldepth : Z)
    (evt : Event string) (w : World) : World * option error :=
  match fh_f fh with
  | None =>
      (w, Some (errorString
                  "Output() called on FileHandler created without OpenFile"))
  | Some _ =>
      let evt :=
        if negb (String.eqb (Component (fh_opts fh)) "") then
          let evt :=
            if negb (String.eqb (evt_Component evt) "")
            then set_Component evt (evt_Component evt +:+ ".")
            else evt in
          set_Component evt (evt_Component evt +:+ Component (fh_opts fh))
        else evt in
      let buf := match Formatter_opt (fh_opts fh) with
                 | Some f => Format f evt
                 | None => LineFormat_Format defFormatter evt
                 end in
      os_File_Write (fh_f fh) buf w
  end.

Definition FileHandler_Handler (p : positive) (fh : FileHandler)
    : Handler World string :=
  mkHandler p (FileHandler_Options fh)
            (FileHandler_Output fh) (FileHandler_InsertBreak fh).

End Sinks.

(** ** Values of type any and the payload type

    [any] stands for Go's [any]; [Sprint_v v] is [fmt.Sprintf("%v", v)].
    For a payload type [E] the code looks at two things: the zero value of
    [E], and whether [E] is the type [string], in which case a string
    converts to [E] as it is. *)

Class GoType (E : Type) : Type := {
  zero_value : E;
  (** [Some conv] when [E] is [string]; [conv s] is [any(s).(E)] *)
  string_as : option (string -> E)
}.

#[global] Instance GoType_string : GoType string :=
  {| zero_value := ""; string_as := Some (fun s => s) |}.

(** ** options.go: Options *)

Record Options (World any E : Type) : Type := mkOptions {
  opt_HandlerOptions : HandlerOptions E;
  Converter : option (any -> E);
  Handlers : gmap Level (list (Handler World E))
}.
Arguments mkOptions {World any E} _ _ _.
Arguments opt_HandlerOptions {World any E} _.
Arguments Converter {World any E} _.
Arguments Handlers {World any E} _.

(** [Defaults()]; a nil map reads as an empty one, and the code only reads
    and measures the maps it is given. *)
Definition Defaults {World any E} : Options World any E :=
  mkOptions (mkHandlerOptions "" None) None ∅.

(** ** Iterating over a map

    [for k := range m] visits every key of [m] once, in an order that Go
    leaves open.  A function of the model that ranges over a map takes the
    order of the visit as an argument; [range_order m ks] says that [ks] is
    an order in which Go may visit [m]. *)

Definition range_order `{Countable K} {V} (m : gmap K V) (ks : list K) : Prop :=
  NoDup ks ∧ (list_to_set ks : gset K) = dom m.

#[global] Instance range_order_dec `{Countable K} {V} (m : gmap K V) ks :
  Decision (range_order m ks).
Proof. unfold range_order. apply _. Defined.

(** [m[k]] for a map of slices: the nil slice when [k] is absent. *)
Definition at_key `{Countable K} {A} (m : gmap K (list A)) (k : K) : list A :=
  default [] (m !! k).

(** ** logger.go *)

Record Logger (World any E : Type) : Type := mkLogger {
  lg_opts : Options World any E;
  useMtxForLogging : bool;
  lg_h : gmap Z (list (Handler World E))
}.
Arguments mkLogger {World any E} _ _ _.
Arguments lg_opts {World any E} _.
Arguments useMtxForLogging {World any E} _.
Arguments lg_h {World any E} _.

Record handLv (World E : Type) : Type := mkHandLv {
  hl_h : Handler World E;
  hl_lv : Z
}.
Arguments mkHandLv {World E} _ _.
Arguments hl_h {World E} _.
Arguments hl_lv {World E} _.

Section Logger.
Context {World any E : Type}.
Context (Sprint_v : any -> string).
Context `{GoType E}.

Local Abbreviation Handler := (Handler World E).
Local Abbreviation Options := (Options World any E).
Local Abbreviation Logger := (Logger World any E).

(** [AddHandler] works on the map the logger points to; here it returns
    the logger with the map after the call. *)
Definition Logger_AddHandler (lg : Logger) (lv : Level) (out : Handler) : Logger :=
  let sev := Severity lv in
  let sev := if bool_decide (Severity lv = Severity LvAll)
             then minPossibleSeverity else sev in
  let currentList := match lg_h lg !! sev with
                     | Some l => l
                     | None => []
                     end in
  let currentList := currentList ++ [out] in
  mkLogger (lg_opts lg) (useMtxForLogging lg) (<[sev := currentList]> (lg_h lg)).

(** [New(opts)]; [ord] is the order in which [opts.Handlers] is ranged
    over. *)
Definition New (ord : list Level) (opts : Options) : Logger :=
  let opts :=
    match Converter opts with
    | None =>
        match string_as with
        | Some conv =>
            mkOptions (opt_HandlerOptions opts)
                      (Some (fun v => conv (Sprint_v v))) (Handlers opts)
        | None =>
            mkOptions (opt_HandlerOptions opts)
                      (Some (fun _ => zero_value)) (Handlers opts)
        end
    | Some _ => opts
    end in
  let logger := mkLogger opts true ∅ in
  if bool_decide (0 < size (Handlers opts))%nat then
    foldl (fun logger lv =>
             foldl (fun logger h => Logger_AddHandler logger lv h)
                   logger (at_key (Handlers opts) lv))
          logger ord
  else logger.

(** [HandlersForLevel(lv)]; [ord] is the order in which [lg.h] is ranged
    over. *)
Definition Logger_HandlersForLevel (ord : list Z) (lg : Logger) (lv : Level)
    : list Handler :=
  foldl (fun outputs minLevel =>
           if bool_decide (minLevel <= Severity lv)
           then outputs ++ at_key (lg_h lg) minLevel
           else outputs)
        [] ord.

(** One turn of the loop that [Output] and [InsertBreak] both run over the
    handlers to dispatch to: [call] is the method called on the handler, the
    state is the world so far and [fullErr]. *)
Definition dispatch_step (call : Handler -> World -> World * option error)
    (st : World * option error) (h : Handler) : World * option error :=
  let '(w, fullErr) := st in
  let '(w, err) := call h w in
  match err with
  | Some err =>
      match fullErr with
      | Some fullErr =>
          (w, Some (wrapError
                      (Error fullErr +:+ nl +:+ "hander: " +:+ Error err) err))
      | None => (w, Some (wrapError ("handler: " +:+ Error err) err))
      end
  | None => (w, fullErr)
  end.

Definition Logger_InsertBreak (ord : list Z) (lg : Logger) (lv : Level) (w : World)
    : World * option error :=
  let dispatch := Logger_HandlersForLevel ord lg lv in
  foldl (dispatch_step (fun h => hdl_InsertBreak h)) (w, None) dispatch.

Definition Logger_HandlerOptions (lg : Logger) : HandlerOptions E :=
  opt_HandlerOptions (lg_opts lg).

Definition Logger_Options (lg : Logger) : Options := lg_opts lg.

Definition Logger_Output (ord : list Z) (lg : Logger) (calldepth : Z) (evt : Event E)
    (w : World) : World * option error :=
  let evt :=
    if negb (String.eqb (Component (opt_HandlerOptions (lg_opts lg))) "") then
      let evt :=
        if negb (String.eqb (evt_Component evt) "")
        then set_Component evt (evt_Component evt +:+ ".")
        else evt in
      set_Component evt
        (evt_Component evt +:+ Component (opt_HandlerOptions (lg_opts lg)))
    else evt in
  let dispatch := Logger_HandlersForLevel ord lg (evt_Level evt) in
  foldl (dispatch_step (fun h => hdl_Output h (int_add calldepth 1) evt))
        (w, None) dispatch.

(** The options that [Copy] hands to [New].  [ord_h] is the order of the
    range over [lg.h], [ord_added] and [ord_new] the orders of the two ranges
    over [opts.Handlers]. *)
Definition Logger_Copy_merged (ord_h : list Z) (ord_added ord_new : list Level)
    (lg : Logger) (opts : Options) : Options :=
  let merged_Component := Component (opt_HandlerOptions opts) in
  let merged_Component :=
    if String.eqb merged_Component ""
    then Component (opt_HandlerOptions (lg_opts lg))
    else merged_Component in
  let merged_Formatter := Formatter_opt (opt_HandlerOptions opts) in
  let merged_Formatter :=
    match merged_Formatter with
    | None => Formatter_opt (opt_HandlerOptions (lg_opts lg))
    | Some _ => merged_Formatter
    end in
  let merged_Converter := Converter opts in
  let merged_Converter :=
    match merged_Converter with
    | None => Converter (lg_opts lg)
    | Some _ => merged_Converter
    end in
  let current :=
    foldl (fun current lv =>
             foldl (fun current h => current ++ [mkHandLv h lv])
                   current (at_key (lg_h lg) lv))
          [] ord_h in
  let optAdded :=
    foldl (fun optAdded lv => optAdded ++ at_key (Handlers opts) lv)
          [] ord_added in
  let mergedHandlers : gmap Level (list Handler) := ∅ in
  let mergedHandlers :=
    foldl (fun mergedHandlers entry =>
             let addedByOpt :=
               existsb (fun add => Handler_eqb (hl_h entry) add) optAdded in
             if negb addedByOpt then
               let lv := mkLevel "" (hl_lv entry) in
               let lv :=
                 if bool_decide (hl_lv entry = minPossibleSeverity) then LvAll
                 else if bool_decide (hl_lv entry = Severity LvFatal) then LvFatal
                 else if bool_decide (hl_lv entry = Severity LvError) then LvError
                 else if bool_decide (hl_lv entry = Severity LvWarn) then LvWarn
                 else if bool_decide (hl_lv entry = Severity LvInfo) then LvInfo
                 else if bool_decide (hl_lv entry = Severity LvDebug) then LvDebug
                 else if bool_decide (hl_lv entry = Severity LvTrace) then LvTrace
                 else lv in
               let curSlice := at_key mergedHandlers lv in
               let curSlice := curSlice ++ [hl_h entry] in
               <[lv := curSlice]> mergedHandlers
             else mergedHandlers)
          mergedHandlers current in
  let mergedHandlers :=
    foldl (fun mergedHandlers lv =>
             let mergedSlice := at_key mergedHandlers lv in
             let mergedSlice := mergedSlice ++ at_key (Handlers opts) lv in
             <[lv := mergedSlice]> mergedHandlers)
          mergedHandlers ord_new in
  mkOptions (mkHandlerOptions merged_Component merged_Formatter)
            merged_Converter
            (if bool_decide (0 < size mergedHandlers)%nat
             then mergedHandlers else ∅).

(** [lg.Copy(opts)]; [ord_merged] is the order in which [New] ranges over
    the merged handlers. *)
Definition Logger_Copy (ord_h : list Z) (ord_added ord_new ord_merged : list Level)
    (lg : Logger) (opts : Options) : Logger :=
  New ord_merged (Logger_Copy_merged ord_h ord_added ord_new lg opts).

End Logger.

(** ** Notions the properties are stated with *)

Definition is_newline (c : ascii) : bool := Ascii.eqb c newline.

(** Number of newline bytes a string ends in. *)
Fixpoint trailing_newlines (s : string) : nat :=
  match s with
  | "" => 0%nat
  | String c s' =>
      if is_newline c && (trailing_newlines s' =? String.length s')%nat
      then S (String.length s')
      else trailing_newlines s'
  end.

Definition ends_in_exactly_one_newline (s : string) : Prop :=
  trailing_newlines s = 1%nat.

(** Number of positions of [s] at which [needle] occurs. *)
Fixpoint occurrences (needle s : string) : nat :=
  ((if String.prefix needle s then 1 else 0) +
   match s with
   | "" => 0
   | String _ s' => occurrences needle s'
   end)%nat.

(** The message as [LineFormat] prints it. *)
Definition with_newline (msg : string) : string :=
  if HasSuffix msg nl then msg else msg +:+ nl.

(** A point in time for the examples. *)
Definition noon : Time :=
  let c := mkClockface 2023 7 20 12 0 0 0 in mkTime c c.

(** The component of an event after a handler or logger with the
    component [own] has chained its own to it, as the code does it: the
    event's component first. *)
Definition chain_component (evtc own : string) : string :=
  if String.eqb evtc "" then own else evtc +:+ "." +:+ own.

(** The same with the own component in front of the event's, which is what
    prepending would be. *)
Definition prepend_component (own evtc : string) : string :=
  if String.eqb evtc "" then own else own +:+ "." +:+ evtc.

(** The bytes a handler with options [opts] makes of an event. *)
Definition format_with (opts : HandlerOptions string) (evt : Event string)
    : string :=
  match Formatter_opt opts with
  | Some f => Format f evt
  | None => LineFormat_Format defFormatter evt
  end.

(** The error of [FileHandler.Output] on a handler that was never opened. *)
Definition errNotOpened : error :=
  errorString "Output() called on FileHandler created without OpenFile".

(** Calling [call] on every handler of a list in turn, whatever each one
    returns: the world at the end and each call's result. *)
Fixpoint attempt_all {World H : Type}
    (call : H -> World -> World * option error) (hs : list H) (w : World)
    : World * list (option error) :=
  match hs with
  | [] => (w, [])
  | h :: hs =>
      let '(w, r) := call h w in
      let '(w, rs) := attempt_all call hs w in
      (w, r :: rs)
  end.

(** The errors among the results of the calls, in the order of the calls. *)
Definition failures (rs : list (option error)) : list error :=
  omap (fun r => r) rs.

(** The message of the combined error for the errors [e :: es]. *)
Definition combined_message (e : error) (es : list error) : string :=
  foldl (fun msg e' => msg +:+ nl +:+ "hander: " +:+ Error e')
        ("handler: " +:+ Error e) es.

(** [s] holds [t] somewhere. *)
Definition contains (s t : string) : Prop := ∃ a b, s = a +:+ t +:+ b.

(** The key of [lg.h] under which [AddHandler(lv, _)] files a handler. *)
Definition bucket_of (lv : Level) : Z :=
  if bool_decide (Severity lv = Severity LvAll)
  then minPossibleSeverity else Severity lv.

(** A handler is registered in a logger when some bucket holds it. *)
Definition registered {World any E} (lg : Logger World any E)
    (h : Handler World E) : Prop :=
  ∃ k, h ∈ at_key (lg_h lg) k.

(** *** A world for the examples

    The world is the list of the writes so far, each with the sink it went
    to; a file is its path.  Every write succeeds, except that a write to
    /dev/full finds no space. *)

Definition Journal : Type := list (string * string).

#[global] Instance Journal_OS : OS Journal string := {|
  os_Stderr_Write buf w := (w ++ [("stderr", buf)], None);
  os_File_Write_open f buf w :=
    if String.eqb f "/dev/full"
    then (w, Some (errorString "write /dev/full: no space left on device"))
    else (w ++ [(f, buf)], None)
|}.

(** *** Loggers a program can have

    The fields of a [Logger] are not exported and its zero value is not for
    use: a program gets its loggers from [New] (which [Copy] ends in) and
    changes them with [AddHandler].  The severities of the levels it passes
    are values of type [int]. *)

Inductive constructed {World any E : Type} `{GoType E}
    (Sprint_v : any -> string) : Logger World any E -> Prop :=
| constructed_New (ord : list Level) (opts : Options World any E) :
    (∀ lv, is_Some (Handlers opts !! lv) → is_int (Severity lv)) →
    range_order (Handlers opts) ord →
    constructed Sprint_v (New Sprint_v ord opts)
| constructed_AddHandler (lg : Logger World any E) (lv : Level)
    (h : Handler World E) :
    constructed Sprint_v lg →
    is_int (Severity lv) →
    constructed Sprint_v (Logger_AddHandler lg lv h).

(** What holds of the registry of every such logger: its keys are values of
    type [int], none is the severity of [LvAll], and no bucket is empty. *)
Definition registry_ok {A : Type} (m : gmap Z (list A)) : Prop :=
  ∀ k l, m !! k = Some l → is_int k ∧ k ≠ Severity LvAll ∧ l ≠ [].

(** *** Handlers and loggers for the examples *)

(** A stderr handler with default options, at address 1. *)
Definition stderr1 : Handler Journal string :=
  StderrHandler_Handler 1 (NewStderrHandler None).

(** A file handler that was never opened, at address 2. *)
Definition unopened2 : Handler Journal string :=
  FileHandler_Handler 2 FileHandler_zero.

(** A file handler on server.log, at address 3. *)
Definition serverlog3 : Handler Journal string :=
  FileHandler_Handler 3 (mkFileHandler (mkHandlerOptions "" None)
                                       (Some "server.log")).

(** A file handler on /dev/full, at address 4. *)
Definition devfull4 : Handler Journal string :=
  FileHandler_Handler 4 (mkFileHandler (mkHandlerOptions "" None)
                                       (Some "/dev/full")).

(** For a value that is a string, [%v] prints the string. *)
Definition Sprint_string (v : string) : string := v.

(** [New(Defaults())] for a logger of strings. *)
Definition fresh_logger : Logger Journal string string :=
  New Sprint_string [] Defaults.

(** * Properties *)

(** ** Strings *)

Lemma append_nil_r (s : string) : s +:+ "" = s.
Proof. induction s as [|c s IH]; [done|]. cbv [String.append]. fold String.append. by rewrite IH. Qed.

Lemma append_cons (c : ascii) (a b : string) :
  String c a +:+ b = String c (a +:+ b).
Proof. reflexivity. Qed.

Lemma append_assoc (a b c : string) : (a +:+ b) +:+ c = a +:+ (b +:+ c).
Proof.
  induction a as [|x a IH]; [done|].
  by rewrite !append_cons, IH.
Qed.

Lemma length_append (a b : string) :
  String.length (a +:+ b) = (String.length a + String.length b)%nat.
Proof.
  induction a as [|x a IH]; [done|].
  rewrite append_cons. simpl. by rewrite IH.
Qed.

Lemma HasSuffix_refl (s : string) : HasSuffix s s = true.
Proof. destruct s; cbn [HasSuffix]; by rewrite String.eqb_refl. Qed.

Lemma HasSuffix_iff (s t : string) :
  HasSuffix s t = true ↔ ∃ p, s = p +:+ t.
Proof.
  split.
  - induction s as [|c s IH]; cbn [HasSuffix].
    + destruct (String.eqb_spec "" t) as [<-|]; [|done]. by exists "".
    + destruct (String.eqb_spec (String c s) t) as [<-|].
      * by exists "".
      * intros [p ->]%IH. by exists (String c p).
  - intros [p ->]. induction p as [|c p IH]; [apply HasSuffix_refl|].
    rewrite append_cons. cbn [HasSuffix]. rewrite IH. by destruct (String.eqb _ _).
Qed.

Lemma trailing_newlines_le (s : string) :
  (trailing_newlines s <= String.length s)%nat.
Proof.
  induction s as [|c s IH]; simpl; [lia|].
  destruct (is_newline c && _); lia.
Qed.

Lemma trailing_newlines_app_other (a b : string) (c : ascii) :
  is_newline c = false →
  trailing_newlines (a +:+ String c b) = trailing_newlines b.
Proof.
  intros Hc. induction a as [|x a IH].
  - change ("" +:+ String c b) with (String c b). simpl. by rewrite Hc.
  - rewrite append_cons. simpl. rewrite IH.
    pose proof (trailing_newlines_le b).
    rewrite length_append. simpl.
    destruct (Nat.eqb_spec (trailing_newlines b)
                (String.length a + S (String.length b))); [lia|].
    by rewrite andb_false_r.
Qed.

Lemma trailing_newlines_app_nl (s : string) :
  trailing_newlines (s +:+ nl) = S (trailing_newlines s).
Proof.
  induction s as [|c s IH]; [done|].
  rewrite append_cons. simpl. rewrite IH, length_append. simpl.
  replace (String.length s + 1)%nat with (S (String.length s)) by lia.
  simpl. destruct (is_newline c && _); lia.
Qed.

Lemma HasSuffix_nl (s : string) :
  HasSuffix s nl = true ↔ (1 <= trailing_newlines s)%nat.
Proof.
  rewrite HasSuffix_iff. split.
  - intros [p ->]. rewrite trailing_newlines_app_nl. lia.
  - induction s as [|c s IH]; simpl; [lia|].
    destruct (is_newline c && _) eqn:Hc.
    + apply andb_prop in Hc as [Hc Hall].
      apply Ascii.eqb_eq in Hc as ->.
      apply Nat.eqb_eq in Hall.
      destruct s as [|d s]; [by exists ""|].
      intros _. destruct IH as [p ->]; [simpl in *; lia|].
      by exists (String newline p).
    + intros [p ->]%IH. by exists (String c p).
Qed.

Lemma trailing_newlines_with_newline (msg : string) :
  trailing_newlines (with_newline msg) = Nat.max 1 (trailing_newlines msg).
Proof.
  unfold with_newline. destruct (HasSuffix msg nl) eqn:Hs.
  - apply HasSuffix_nl in Hs. lia.
  - rewrite trailing_newlines_app_nl.
    destruct (trailing_newlines msg) eqn:Hn; [done|].
    assert (HasSuffix msg nl = true) by (apply HasSuffix_nl; lia). congruence.
Qed.

(** ** The line formatter *)

Lemma spaces_not_newline (n : nat) (s : string) :
  trailing_newlines (spaces n +:+ String " " s) = trailing_newlines s.
Proof. by apply trailing_newlines_app_other. Qed.

(** What [LineFormat.Format] prints, piece by piece. *)
Lemma LineFormat_Format_eq (lf : LineFormat) (evt : Event string) :
  LineFormat_Format lf evt =
    (formatTime (evt_Time evt) (UTC lf) (ShowMircoseconds lf) +:+ " " +:+
     pad_right_5 (Name (evt_Level evt)) +:+
     (if decide (evt_Component evt = "") then ""
      else " (" +:+ evt_Component evt +:+ ")")) +:+
    String " " (with_newline (evt_Message evt)).
Proof.
  unfold LineFormat_Format, with_newline.
  destruct (HasSuffix (evt_Message evt) nl); cbn [negb];
    destruct (String.eqb_spec (evt_Component evt) "") as [He|He];
    cbn [negb]; destruct (decide _) as [Hd|Hd]; try done;
    by rewrite ?append_assoc, ?append_nil_r.
Qed.

(** C5, as stated, fails: a message that ends in two newlines is printed
    with both of them. *)
Lemma LineFormat_Format_two_newlines :
  trailing_newlines
    (LineFormat_Format defFormatter
       (mkEvent "" noon LvInfo ("x" +:+ nl +:+ nl))) = 2%nat
  ∧ ¬ ends_in_exactly_one_newline
        (LineFormat_Format defFormatter
           (mkEvent "" noon LvInfo ("x" +:+ nl +:+ nl))).
Proof. unfold ends_in_exactly_one_newline. by vm_compute. Qed.

(** C5 (amended): the output of the line formatter always ends in a
    newline; the message is printed as it is, followed by one newline exactly
    when it does not end in one already.  So the output ends in as many
    newlines as the message does, and in one when the message ends in none:
    in exactly one newline whenever the message ends in at most one. *)
Theorem LineFormat_Format_trailing_newline (lf : LineFormat)
    (evt : Event string) :
  (∃ head, LineFormat_Format lf evt =
             head +:+ evt_Message evt +:+
             (if HasSuffix (evt_Message evt) nl then "" else nl))
  ∧ HasSuffix (LineFormat_Format lf evt) nl = true
  ∧ trailing_newlines (LineFormat_Format lf evt) =
      Nat.max 1 (trailing_newlines (evt_Message evt))
  ∧ ((trailing_newlines (evt_Message evt) <= 1)%nat →
     ends_in_exactly_one_newline (LineFormat_Format lf evt)).
Proof.
  assert (Ht : trailing_newlines (LineFormat_Format lf evt) =
               Nat.max 1 (trailing_newlines (evt_Message evt))).
  { rewrite LineFormat_Format_eq, trailing_newlines_app_other by done.
    apply trailing_newlines_with_newline. }
  split; [|split; [|split]].
  - rewrite LineFormat_Format_eq.
    match goal with |- ∃ _, ?pre +:+ String " " _ = _ =>
      exists (pre +:+ " ") end.
    rewrite (append_assoc _ " "). unfold with_newline.
    destruct (HasSuffix (evt_Message evt) nl).
    + rewrite append_nil_r. reflexivity.
    + reflexivity.
  - apply HasSuffix_nl. lia.
  - done.
  - unfold ends_in_exactly_one_newline. lia.
Qed.

(** C6, as stated, fails: the output holds the component in parentheses a
    second time when the message holds it too. *)
Lemma LineFormat_Format_component_twice :
  occurrences "(a)"
    (LineFormat_Format defFormatter (mkEvent "a" noon LvInfo "(a)")) = 2%nat.
Proof. by vm_compute. Qed.

(** *** The width of the level field *)

Lemma utf8_first_Some (c : N) (size : nat) (lo hi : N) :
  utf8_first c = Some (size, lo, hi) →
  (size = 2 ∨ size = 3 ∨ size = 4)%nat ∧ (128 <= lo)%N.
Proof.
  unfold utf8_first.
  repeat match goal with
         | |- context [if ?b then _ else _] => destruct b
         end; intros [= <- <- <-] || intros [=]; split; auto; lia.
Qed.

Lemma in_range_space (lo hi : N) :
  (128 <= lo)%N → in_range lo hi (N_of_ascii " ") = false.
Proof.
  intros Hlo. unfold in_range. apply andb_false_intro1.
  apply N.leb_gt. change (N_of_ascii " ") with 32%N. lia.
Qed.

Lemma rune_size_app_spaces (c : ascii) (rest : string) (n : nat) :
  rune_size c (rest +:+ spaces n) = rune_size c rest.
Proof.
  unfold rune_size.
  destruct (N_of_ascii c <? 128)%N; [done|].
  destruct (utf8_first (N_of_ascii c)) as [[[size lo] hi]|] eqn:Hf; [|done].
  apply utf8_first_Some in Hf as [Hsize Hlo].
  pose proof (in_range_space lo hi Hlo) as Hsp.
  pose proof (in_range_space 128 191 ltac:(lia)) as Hsp'.
  destruct rest as [|c1 [|c2 [|c3 rest]]];
    destruct n as [|[|[|n]]];
    destruct Hsize as [->|[->| ->]];
    cbv [spaces String.append String.length Nat.ltb Nat.leb Nat.sub Nat.eqb];
    fold String.append; fold spaces;
    rewrite ?Hsp, ?Hsp'; cbn [negb];
    repeat match goal with
           | |- context [in_range ?a ?b ?x] => destruct (in_range a b x)
           end; cbn [negb]; try reflexivity.
Qed.

Lemma rune_size_bounds (c : ascii) (rest : string) :
  (1 <= rune_size c rest <= S (String.length rest))%nat.
Proof.
  unfold rune_size.
  destruct (N_of_ascii c <? 128)%N; [lia|].
  destruct (utf8_first (N_of_ascii c)) as [[[size lo] hi]|] eqn:Hf; [|lia].
  apply utf8_first_Some in Hf as [Hsize _].
  destruct rest as [|c1 [|c2 [|c3 rest]]];
    destruct Hsize as [->|[->| ->]]; cbn;
    repeat match goal with
           | |- context [in_range ?a ?b ?x] => destruct (in_range a b x)
           end; cbn; lia.
Qed.

Lemma rune_count_spaces (n : nat) : rune_count 0 (spaces n) = n.
Proof.
  induction n as [|n IH]; [done|]. cbn [spaces rune_count].
  change (rune_size " " (spaces n)) with 1%nat. cbn [Nat.sub]. by rewrite IH.
Qed.

Lemma rune_count_app_spaces (s : string) (n skip : nat) :
  (skip <= String.length s)%nat →
  rune_count skip (s +:+ spaces n) = (rune_count skip s + n)%nat.
Proof.
  revert skip. induction s as [|c s IH]; intros skip Hskip.
  - cbn in Hskip. assert (skip = 0)%nat as -> by lia.
    apply rune_count_spaces.
  - rewrite append_cons. cbn [rune_count]. destruct skip as [|k].
    + rewrite rune_size_app_spaces.
      pose proof (rune_size_bounds c s). rewrite IH by lia. done.
    + cbn in Hskip. apply IH. lia.
Qed.

Lemma RuneCountInString_pad_right_5 (s : string) :
  RuneCountInString (pad_right_5 s) = Nat.max 5 (RuneCountInString s).
Proof.
  unfold pad_right_5, RuneCountInString.
  rewrite rune_count_app_spaces by lia. lia.
Qed.

Lemma prefix_append (s b : string) : String.prefix s (s +:+ b) = true.
Proof.
  induction s as [|c s IH].
  { change ("" +:+ b) with b. by destruct b. }
  rewrite append_cons. cbn [String.prefix].
  destruct (ascii_dec c c); [exact IH|done].
Qed.

Lemma occurrences_append (needle a b : string) :
  (1 <= occurrences needle (a +:+ needle +:+ b))%nat.
Proof.
  induction a as [|c a IH].
  - change ("" +:+ needle +:+ b) with (needle +:+ b).
    destruct (needle +:+ b) eqn:E; cbn [occurrences]; rewrite <- E;
      rewrite prefix_append; lia.
  - rewrite append_cons. cbn [occurrences]. lia.
Qed.

(** C6 (amended): for an event with a component, the output is the
    timestamp, a space, the level field, a space, the component in
    parentheses, a space and the message with its newline.  The level field
    is the level's name followed by the spaces that bring it to 5 runes,
    nothing more when the name is longer.  So the formatter writes the
    component in parentheses once, between the level field and the message;
    the output holds it again only where the level's name, the component or
    the message themselves do. *)
Theorem LineFormat_Format_component (lf : LineFormat) (evt : Event string) :
  evt_Component evt ≠ "" →
  let level := Name (evt_Level evt) in
  let field := level +:+ spaces (5 - RuneCountInString level) in
  LineFormat_Format lf evt =
    (formatTime (evt_Time evt) (UTC lf) (ShowMircoseconds lf) +:+ " " +:+
     field +:+ " ") +:+
    ("(" +:+ evt_Component evt +:+ ")") +:+
    (" " +:+ with_newline (evt_Message evt))
  ∧ RuneCountInString field = Nat.max 5 (RuneCountInString level)
  ∧ (1 <= occurrences ("(" +:+ evt_Component evt +:+ ")")
                      (LineFormat_Format lf evt))%nat.
Proof.
  intros Hc level field.
  assert (Heq : LineFormat_Format lf evt =
    (formatTime (evt_Time evt) (UTC lf) (ShowMircoseconds lf) +:+ " " +:+
     field +:+ " ") +:+
    ("(" +:+ evt_Component evt +:+ ")") +:+
    (" " +:+ with_newline (evt_Message evt))).
  { rewrite LineFormat_Format_eq. destruct (decide _) as [|_]; [done|].
    fold level. change (pad_right_5 level) with field.
    rewrite !append_assoc. reflexivity. }
  split; [done|split].
  - apply RuneCountInString_pad_right_5.
  - rewrite Heq. apply occurrences_append.
Qed.

Lemma LineFormat_Format_component_witness :
  LineFormat_Format defFormatter (mkEvent "db" noon LvWarn "x") =
    "2023/07/20 12:00:00 WARN  (db) x" +:+ nl.
Proof.
  destruct (LineFormat_Format_component defFormatter
              (mkEvent "db" noon LvWarn "x")) as [-> _].
  - discriminate.
  - reflexivity.
Defined.

(** ** The handlers for stderr and for files *)

Lemma chained_event {E} (own : string) (evt : Event E) :
  own ≠ "" →
  set_Component
    (if negb (String.eqb (evt_Component evt) "")
     then set_Component evt (evt_Component evt +:+ ".")
     else evt)
    (evt_Component
       (if negb (String.eqb (evt_Component evt) "")
        then set_Component evt (evt_Component evt +:+ ".")
        else evt) +:+ own) =
  set_Component evt (chain_component (evt_Component evt) own).
Proof.
  intros _. destruct evt as [c t lv m].
  unfold chain_component, set_Component. cbn [evt_Component].
  destruct (String.eqb_spec c "") as [->|_]; cbn.
  - reflexivity.
  - by rewrite append_assoc.
Qed.

Section SinkProperties.
Context `{os : OS World File}.

Lemma StderrHandler_Output_eq (seh : StderrHandler) (calldepth : Z)
    (evt : Event string) (w : World) :
  Component (seh_opts seh) ≠ "" →
  StderrHandler_Output seh calldepth evt w =
    os_Stderr_Write
      (format_with (seh_opts seh)
         (set_Component evt
            (chain_component (evt_Component evt) (Component (seh_opts seh)))))
      w.
Proof.
  intros Hc. unfold StderrHandler_Output.
  destruct (String.eqb_spec (Component (seh_opts seh)) "") as [|_]; [done|].
  cbn [negb]. cbv zeta. by rewrite (chained_event _ evt Hc).
Qed.

Lemma FileHandler_Output_eq (fh : FileHandler) (f : File) (calldepth : Z)
    (evt : Event string) (w : World) :
  fh_f fh = Some f →
  Component (fh_opts fh) ≠ "" →
  FileHandler_Output fh calldepth evt w =
    os_File_Write_open f
      (format_with (fh_opts fh)
         (set_Component evt
            (chain_component (evt_Component evt) (Component (fh_opts fh)))))
      w.
Proof.
  intros Hf Hc. unfold FileHandler_Output. rewrite Hf.
  destruct (String.eqb_spec (Component (fh_opts fh)) "") as [|_]; [done|].
  cbn [negb]. cbv zeta. by rewrite (chained_event _ evt Hc).
Qed.

(** A handler without a component passes the event on as it came. *)
Lemma StderrHandler_Output_no_component (seh : StderrHandler) (calldepth : Z)
    (evt : Event string) (w : World) :
  Component (seh_opts seh) = "" →
  StderrHandler_Output seh calldepth evt w =
    os_Stderr_Write (format_with (seh_opts seh) evt) w.
Proof. intros Hc. unfold StderrHandler_Output. by rewrite Hc. Qed.

End SinkProperties.

(** ** Ranging over a map *)

Lemma range_order_elem `{Countable K} {V} (m : gmap K V) (ks : list K) (k : K) :
  range_order m ks → k ∈ ks ↔ is_Some (m !! k).
Proof.
  intros [_ Hdom]. rewrite <- elem_of_dom, <- Hdom. set_solver.
Qed.

Lemma range_order_empty `{Countable K} {V} (ks : list K) :
  range_order (∅ : gmap K V) ks → ks = [].
Proof.
  intros Hr. destruct ks as [|k ks]; [done|].
  assert (Hk : k ∈ k :: ks) by set_solver.
  apply (range_order_elem _ _ _ Hr) in Hk as [? Hk].
  by rewrite lookup_empty in Hk.
Qed.

Lemma range_order_exists `{Countable K} {V} (m : gmap K V) :
  range_order m (elements (dom m)).
Proof.
  split; [apply NoDup_elements|]. apply set_eq. intros k.
  by rewrite elem_of_list_to_set, elem_of_elements.
Qed.

Lemma at_key_elem `{Countable K} {A} (m : gmap K (list A)) (k : K) (x : A) :
  x ∈ at_key m k ↔ ∃ l, m !! k = Some l ∧ x ∈ l.
Proof.
  unfold at_key. destruct (m !! k) as [l|]; cbn.
  - naive_solver.
  - split; [by intros ?%elem_of_nil|naive_solver].
Qed.

(** ** The logger's registry *)

Section LoggerProperties.
Context {World any E : Type}.
Context (Sprint_v : any -> string).
Context `{GoType E}.

Local Abbreviation Handler := (Handler World E).
Local Abbreviation Options := (Options World any E).
Local Abbreviation Logger := (Logger World any E).

Lemma Logger_AddHandler_h (lg : Logger) (lv : Level) (out : Handler) :
  lg_h (Logger_AddHandler lg lv out) =
    <[bucket_of lv := at_key (lg_h lg) (bucket_of lv) ++ [out]]> (lg_h lg).
Proof.
  unfold Logger_AddHandler, bucket_of, at_key. cbn [lg_h].
  destruct (bool_decide _); by destruct (lg_h lg !! _).
Qed.

Lemma Logger_AddHandler_at_key (lg : Logger) (lv : Level) (out : Handler)
    (k : Z) :
  at_key (lg_h (Logger_AddHandler lg lv out)) k =
    if decide (k = bucket_of lv) then at_key (lg_h lg) k ++ [out]
    else at_key (lg_h lg) k.
Proof.
  rewrite Logger_AddHandler_h. unfold at_key at 1.
  destruct (decide (k = bucket_of lv)) as [->|Hne].
  - by rewrite lookup_insert_eq.
  - by rewrite lookup_insert_ne.
Qed.

Lemma Logger_AddHandler_opts (lg : Logger) (lv : Level) (out : Handler) :
  lg_opts (Logger_AddHandler lg lv out) = lg_opts lg.
Proof. reflexivity. Qed.

Lemma HandlersForLevel_fold_elem (m : gmap Z (list Handler)) (sev : Z)
    (ord : list Z) (acc : list Handler) (h : Handler) :
  h ∈ foldl (fun outputs minLevel =>
               if bool_decide (minLevel <= sev)
               then outputs ++ at_key m minLevel else outputs) acc ord
  ↔ h ∈ acc ∨ ∃ k, k ∈ ord ∧ k <= sev ∧ h ∈ at_key m k.
Proof.
  revert acc. induction ord as [|k ord IH]; intros acc; cbn [foldl].
  - split; [auto|]. intros [?|(k & Hk & _)]; [done|]. by apply elem_of_nil in Hk.
  - rewrite IH. case_bool_decide as Hle.
    + rewrite elem_of_app. split.
      * intros [[?|?]|(k' & ? & ? & ?)]; [auto| |].
        -- right. exists k. split; [left|]; auto.
        -- right. exists k'. split; [by right|]; auto.
      * intros [?|(k' & [->|?]%elem_of_cons & ? & ?)]; [auto|auto|].
        right. by exists k'.
    + split.
      * intros [?|(k' & ? & ? & ?)]; [auto|].
        right. exists k'. split; [by right|]; auto.
      * intros [?|(k' & [->|?]%elem_of_cons & ? & ?)]; [auto|lia|].
        right. by exists k'.
Qed.

(** The handlers for a level are those of the buckets at or below the
    level's severity. *)
Lemma elem_of_HandlersForLevel (ord : list Z) (lg : Logger) (lv : Level)
    (h : Handler) :
  range_order (lg_h lg) ord →
  h ∈ Logger_HandlersForLevel ord lg lv
  ↔ ∃ k, k <= Severity lv ∧ h ∈ at_key (lg_h lg) k.
Proof.
  intros Hord. unfold Logger_HandlersForLevel.
  rewrite HandlersForLevel_fold_elem. split.
  - intros [[]%elem_of_nil|(k & _ & ? & ?)]. by exists k.
  - intros (k & Hle & Hin). right. exists k. split; [|done].
    apply (range_order_elem _ _ _ Hord).
    apply at_key_elem in Hin as (l & -> & _). by eexists.
Qed.

End LoggerProperties.

Section Thresholds.
Context {World any E : Type}.
Context (Sprint_v : any -> string).
Context `{GoType E}.

Local Abbreviation Handler := (Handler World E).
Local Abbreviation Logger := (Logger World any E).

Lemma bucket_of_int (lv : Level) :
  is_int (Severity lv) →
  is_int (bucket_of lv) ∧ bucket_of lv ≠ Severity LvAll.
Proof.
  unfold bucket_of, is_int, minPossibleSeverity.
  change (Severity LvAll) with MaxInt.
  assert (MinInt < MaxInt) by done.
  case_bool_decide; lia.
Qed.

Lemma bucket_of_le (lv lv' : Level) :
  is_int (Severity lv') →
  Severity lv <= Severity lv' → bucket_of lv <= Severity lv'.
Proof.
  unfold bucket_of, is_int, minPossibleSeverity. case_bool_decide; lia.
Qed.

Lemma Logger_AddHandler_registers (lg : Logger) (lv : Level) (h : Handler) :
  h ∈ at_key (lg_h (Logger_AddHandler lg lv h)) (bucket_of lv).
Proof.
  rewrite Logger_AddHandler_at_key, decide_True by done. set_solver.
Qed.

Lemma Logger_AddHandler_keeps (lg : Logger) (lv : Level) (h h' : Handler)
    (k : Z) :
  h ∈ at_key (lg_h lg) k → h ∈ at_key (lg_h (Logger_AddHandler lg lv h')) k.
Proof.
  rewrite Logger_AddHandler_at_key. case_decide; set_solver.
Qed.

Lemma AddHandlers_keep (lg : Logger) (later : list (Level * Handler))
    (h : Handler) (k : Z) :
  h ∈ at_key (lg_h lg) k →
  h ∈ at_key
        (lg_h (foldl (fun lg p => Logger_AddHandler lg p.1 p.2) lg later)) k.
Proof.
  revert lg. induction later as [|[lv' h'] later IH]; intros lg Hin; [done|].
  cbn [foldl]. apply IH. by apply Logger_AddHandler_keeps.
Qed.

(** C1: a handler added with [LvAll] is filed under the lowest value of
    type [int]; from then on, whatever is added to the logger later, the
    handlers for a level of any severity include it. *)
Theorem AddHandler_LvAll_receives_all (lg : Logger) (h : Handler)
    (later : list (Level * Handler)) (lv : Level) (ord : list Z) :
  let lg1 := Logger_AddHandler lg LvAll h in
  let lg2 := foldl (fun lg p => Logger_AddHandler lg p.1 p.2) lg1 later in
  is_int (Severity lv) →
  range_order (lg_h lg2) ord →
  h ∈ at_key (lg_h lg1) MinInt
  ∧ (∀ z, is_int z → MinInt <= z)
  ∧ h ∈ Logger_HandlersForLevel ord lg2 lv.
Proof.
  intros lg1 lg2 Hint Hord.
  assert (Hin : h ∈ at_key (lg_h lg1) MinInt).
  { apply (Logger_AddHandler_registers lg LvAll h). }
  split; [done|]. split; [by intros z []|].
  apply elem_of_HandlersForLevel; [done|].
  exists MinInt. split; [apply Hint|]. by apply AddHandlers_keep.
Qed.

(** C3 (amended): after [AddHandler(L1, h)] the handlers for a level [L2]
    include [h] when the severity of [L1] is at most that of [L2].  They do
    not include it when the severity of [L2] is below that of [L1], provided
    [L1] has not the severity of [LvAll] and [h] was not registered with the
    logger before. *)
Theorem HandlersForLevel_threshold (lg : Logger) (L1 L2 : Level) (h : Handler)
    (ord : list Z) :
  is_int (Severity L2) →
  range_order (lg_h (Logger_AddHandler lg L1 h)) ord →
  (Severity L1 <= Severity L2 →
   h ∈ Logger_HandlersForLevel ord (Logger_AddHandler lg L1 h) L2)
  ∧ (Severity L2 < Severity L1 →
     Severity L1 ≠ Severity LvAll →
     ¬ registered lg h →
     h ∉ Logger_HandlersForLevel ord (Logger_AddHandler lg L1 h) L2).
Proof.
  intros Hint Hord. split.
  - intros Hle. apply elem_of_HandlersForLevel; [done|].
    exists (bucket_of L1). split; [by apply bucket_of_le|].
    apply Logger_AddHandler_registers.
  - intros Hlt Hne Hnew [k [Hle Hin]]%elem_of_HandlersForLevel; [|done].
    rewrite Logger_AddHandler_at_key in Hin.
    destruct (decide (k = bucket_of L1)) as [->|_].
    + unfold bucket_of in Hle. rewrite bool_decide_false in Hle by done. lia.
    + apply Hnew. by exists k.
Qed.

(** C10: the severity of [LvAll] is the highest value of type [int], so
    the handlers for [LvAll] include every handler registered with the
    logger, under whatever key. *)
Theorem HandlersForLevel_LvAll (lg : Logger) (h : Handler) (ord : list Z) :
  (∀ k, is_Some (lg_h lg !! k) → is_int k) →
  registered lg h →
  range_order (lg_h lg) ord →
  Severity LvAll = MaxInt
  ∧ (∀ k, is_Some (lg_h lg !! k) → k <= Severity LvAll)
  ∧ h ∈ Logger_HandlersForLevel ord lg LvAll.
Proof.
  intros Hkeys [k Hin] Hord.
  assert (Hall : ∀ k, is_Some (lg_h lg !! k) → k <= Severity LvAll).
  { intros k' Hk'. apply Hkeys in Hk' as [_ Hk']. exact Hk'. }
  split; [done|]. split; [done|].
  apply elem_of_HandlersForLevel; [done|]. exists k. split; [|done].
  apply Hall. apply at_key_elem in Hin as (l & -> & _). by eexists.
Qed.

End Thresholds.

(** ** Examples for the thresholds *)

Lemma AddHandler_LvAll_receives_all_witness :
  serverlog3 ∈
    Logger_HandlersForLevel [0; MinInt]
      (Logger_AddHandler (Logger_AddHandler fresh_logger LvAll serverlog3)
                         LvInfo stderr1)
      (mkLevel "LOWEST" MinInt).
Proof.
  apply (AddHandler_LvAll_receives_all fresh_logger serverlog3
           [(LvInfo, stderr1)] (mkLevel "LOWEST" MinInt) [0; MinInt]).
  - by vm_compute.
  - apply (@bool_decide_unpack _ (range_order_dec _ _)). by vm_compute.
Defined.

Lemma fresh_logger_not_registered (h : Handler Journal string) :
  ¬ registered fresh_logger h.
Proof.
  intros [k Hk]. apply at_key_elem in Hk as (l & Hl & _).
  change (lg_h fresh_logger) with (∅ : gmap Z (list (Handler Journal string)))
    in Hl.
  by rewrite lookup_empty in Hl.
Qed.

Ltac by_computation :=
  first [ apply (@bool_decide_unpack _ (range_order_dec _ _)); by vm_compute
        | by vm_compute ].

(** C3, as stated, fails for the level [LvAll]: the severity of [LvInfo] is
    below that of [LvAll], and still a handler added with [LvAll] to a fresh
    logger is among the handlers for [LvInfo]. *)
Lemma HandlersForLevel_below_LvAll :
  Severity LvInfo < Severity LvAll
  ∧ ¬ registered fresh_logger stderr1
  ∧ range_order (lg_h (Logger_AddHandler fresh_logger LvAll stderr1)) [MinInt]
  ∧ stderr1 ∈ Logger_HandlersForLevel [MinInt]
                (Logger_AddHandler fresh_logger LvAll stderr1) LvInfo.
Proof.
  split; [done|]. split; [|split].
  - apply fresh_logger_not_registered.
  - by_computation.
  - apply elem_of_HandlersForLevel; [by_computation|].
    exists MinInt. split; [done|].
    apply (Logger_AddHandler_registers fresh_logger LvAll stderr1).
Qed.

Lemma HandlersForLevel_threshold_witness :
  stderr1 ∈ Logger_HandlersForLevel [100]
              (Logger_AddHandler fresh_logger LvWarn stderr1) LvError
  ∧ stderr1 ∉ Logger_HandlersForLevel [100]
                (Logger_AddHandler fresh_logger LvWarn stderr1) LvInfo.
Proof.
  split.
  - apply (HandlersForLevel_threshold fresh_logger LvWarn LvError stderr1 [100]);
      by_computation.
  - apply (HandlersForLevel_threshold fresh_logger LvWarn LvInfo stderr1 [100]);
      try by_computation.
    apply fresh_logger_not_registered.
Defined.

Lemma HandlersForLevel_LvAll_witness :
  stderr1 ∈ Logger_HandlersForLevel [300; -200]
              (Logger_AddHandler
                 (Logger_AddHandler fresh_logger LvTrace serverlog3)
                 LvFatal stderr1)
              LvAll.
Proof.
  apply (HandlersForLevel_LvAll
           (Logger_AddHandler
              (Logger_AddHandler fresh_logger LvTrace serverlog3)
              LvFatal stderr1) stderr1 [300; -200]).
  - intros k [l Hl]. rewrite !Logger_AddHandler_h in Hl.
    apply lookup_insert_Some in Hl as [[<- _]|[_ Hl]]; [by vm_compute|].
    apply lookup_insert_Some in Hl as [[<- _]|[_ Hl]]; [by vm_compute|].
    change (lg_h fresh_logger)
      with (∅ : gmap Z (list (Handler Journal string))) in Hl.
    by rewrite lookup_empty in Hl.
  - exists 300. apply (Logger_AddHandler_registers _ LvFatal stderr1).
  - by_computation.
Defined.

(** ** Components and unopened files *)

Section SinkClaims.
Context `{os : OS World File}.
Context {any : Type}.

(** C7: on a file handler that was never opened, [Output] returns its own
    error and leaves the world alone; [InsertBreak] has no such test and
    returns what [Write] on a nil file returns, [os.ErrInvalid]. *)
Theorem FileHandler_unopened (fh : FileHandler) (calldepth : Z)
    (evt : Event string) (w : World) :
  fh_f fh = None →
  FileHandler_Output fh calldepth evt w = (w, Some errNotOpened)
  ∧ FileHandler_InsertBreak fh w = (w, Some os_ErrInvalid)
  ∧ os_ErrInvalid ≠ errNotOpened.
Proof.
  intros Hf. unfold FileHandler_Output, FileHandler_InsertBreak.
  rewrite Hf. by repeat split.
Qed.

(** C2 (amended): a stderr handler, an opened file handler and a logger
    with a component of their own put it behind the component the event has,
    with a dot between the two when the event has one, and format or
    dispatch the event with the component so chained. *)
Theorem Output_chains_component (seh : StderrHandler) (fh : FileHandler)
    (f : File) (ord : list Z) (lg : Logger World any string)
    (calldepth : Z) (evt : Event string) (w : World) :
  Component (seh_opts seh) ≠ "" →
  fh_f fh = Some f →
  Component (fh_opts fh) ≠ "" →
  Component (opt_HandlerOptions (lg_opts lg)) ≠ "" →
  let chained own :=
    set_Component evt (chain_component (evt_Component evt) own) in
  StderrHandler_Output seh calldepth evt w =
    os_Stderr_Write
      (format_with (seh_opts seh) (chained (Component (seh_opts seh)))) w
  ∧ FileHandler_Output fh calldepth evt w =
      os_File_Write_open f
        (format_with (fh_opts fh) (chained (Component (fh_opts fh)))) w
  ∧ Logger_Output ord lg calldepth evt w =
      foldl (dispatch_step
               (fun h => hdl_Output h (int_add calldepth 1)
                           (chained (Component
                                       (opt_HandlerOptions (lg_opts lg))))))
            (w, None)
            (Logger_HandlersForLevel ord lg (evt_Level evt)).
Proof.
  intros Hs Hf Hfc Hl chained. split; [|split].
  - by apply StderrHandler_Output_eq.
  - by apply FileHandler_Output_eq.
  - unfold Logger_Output.
    destruct (String.eqb_spec (Component (opt_HandlerOptions (lg_opts lg))) "")
      as [|_]; [done|].
    cbn [negb]. cbv zeta. by rewrite (chained_event _ evt Hl).
Qed.

End SinkClaims.

Lemma FileHandler_unopened_witness :
  FileHandler_Output (File := string) FileHandler_zero 1
    (mkEvent "" noon LvInfo "x") [] = ([], Some errNotOpened)
  ∧ FileHandler_InsertBreak (File := string) FileHandler_zero []
    = ([], Some os_ErrInvalid).
Proof.
  destruct (FileHandler_unopened (World := Journal) (File := string)
              FileHandler_zero 1 (mkEvent "" noon LvInfo "x") [])
    as (Hout & Hbreak & _); [reflexivity|].
  by split.
Defined.

(** C2, as stated, fails: a stderr handler with the component b, given an
    event with the component a, prints a.b and not b.a. *)
Lemma StderrHandler_Output_appends_component :
  let seh := mkStderrHandler (mkHandlerOptions "b" None) in
  let evt := mkEvent "a" noon LvInfo "m" in
  StderrHandler_Output seh 1 evt [] =
    ([("stderr", "2023/07/20 12:00:00 INFO  (a.b) m" +:+ nl)], None)
  ∧ StderrHandler_Output seh 1 evt [] ≠
      os_Stderr_Write
        (format_with (seh_opts seh)
           (set_Component evt
              (prepend_component (Component (seh_opts seh))
                                 (evt_Component evt)))) [].
Proof. by vm_compute. Qed.

Lemma Output_chains_component_witness :
  StderrHandler_Output (mkStderrHandler (mkHandlerOptions "b" None)) 1
    (mkEvent "a" noon LvInfo "m") ([] : Journal) =
    ([("stderr", "2023/07/20 12:00:00 INFO  (a.b) m" +:+ nl)], None).
Proof.
  destruct (Output_chains_component (any := string)
              (mkStderrHandler (mkHandlerOptions "b" None))
              (mkFileHandler (mkHandlerOptions "f" None) (Some "server.log"))
              "server.log" []
              (New Sprint_string [] (mkOptions (mkHandlerOptions "srv" None) None ∅))
              1 (mkEvent "a" noon LvInfo "m") ([] : Journal))
    as (-> & _ & _); try done.
Defined.
